(** * coaster_blas/sidebar-items.js

    The file is one JavaScript expression statement,

      initSidebarItems({"macro":[[..,..],..],"mod":[[..,..],..]});

    i.e. a call of a function supplied by the documentation page, applied to
    one object literal.  We embed the fragment of JavaScript the file is
    written in (string, array and object literals, identifiers, calls), give it
    an evaluator over an explicit host state, and study the value that reaches
    [initSidebarItems].

    Strings are Rocq [string]s, holding the UTF-8 bytes of the source text.
    All names are ASCII; two descriptions contain U+2019, which is three
    bytes here and one code unit in the browser.  None of the properties
    below depends on that difference. *)

From Stdlib Require Import String Ascii List Bool Arith Lia Sorted.
Import ListNotations.
Open Scope string_scope.

#[local] Set Warnings "-register-all".

(** ** Values and syntax *)

Module JS.

(** Run-time values.  [VHostFn] is a callable installed by the page that
    loads the file; its body is not part of this repository. *)
Inductive value : Type :=
| VUndefined
| VString (s : string)
| VArray (elems : list value)
| VObject (props : list (string * value))
| VHostFn (name : string).

(** Expressions of the fragment. *)
Inductive expr : Type :=
| EString (s : string)
| EArray (elems : list expr)
| EObject (props : list (string * expr))
| EIdent (x : string)
| ECall (callee : expr) (args : list expr).

Inductive stmt : Type :=
| SExpr (e : expr).

Definition program : Type := list stmt.

(** What the file can do to its surroundings: call into the page. *)
Inductive event : Type :=
| HostCall (fn : string) (args : list value).

Inductive error : Type :=
| ReferenceError (x : string)
| TypeError.

(** The host: global bindings, and the calls made so far (oldest first). *)
Record state : Type := mkState {
  globals : list (string * value);
  trace : list event
}.

(** ** State-and-error monad *)

Definition M (A : Type) : Type := state -> (error + A) * state.

Definition ret {A} (a : A) : M A := fun st => (inr a, st).

Definition throw {A} (e : error) : M A := fun st => (inl e, st).

Definition bind {A B} (m : M A) (k : A -> M B) : M B :=
  fun st =>
    match m st with
    | (inl e, st') => (inl e, st')
    | (inr a, st') => k a st'
    end.

Definition emit (ev : event) : M unit :=
  fun st => (inr tt, mkState (globals st) (trace st ++ [ev])).

Definition read_globals : M (list (string * value)) :=
  fun st => (inr (globals st), st).

End JS.

Import JS.

Notation "x <- m ;; k" := (bind m (fun x => k))
  (at level 61, m at next level, right associativity).

(** ** Objects as ordered property lists *)

Fixpoint lookup {A} (k : string) (ps : list (string * A)) : option A :=
  match ps with
  | [] => None
  | (k', v) :: ps' => if String.eqb k k' then Some v else lookup k ps'
  end.

(** Defining a property: an existing key keeps its position and takes the
    new value, a new key goes last (the enumeration order of string keys
    that are not array indices). *)
Fixpoint define_prop {A} (k : string) (v : A) (ps : list (string * A))
  : list (string * A) :=
  match ps with
  | [] => [(k, v)]
  | (k', v') :: ps' =>
      if String.eqb k k' then (k, v) :: ps' else (k', v') :: define_prop k v ps'
  end.

(** ** Evaluation *)

Definition resolve (x : string) : M value :=
  g <- read_globals ;;
  match lookup x g with
  | Some v => ret v
  | None => throw (ReferenceError x)
  end.

(** A call of a page function is recorded; the statement that makes it
    discards the result, taken to be [undefined]. *)
Definition call (f : value) (args : list value) : M value :=
  match f with
  | VHostFn name => _ <- emit (HostCall name args) ;; ret VUndefined
  | _ => throw TypeError
  end.

(** Left-to-right evaluation.  In a call the callee is resolved before the
    arguments are evaluated, and tested for callability after. *)
Fixpoint eval (e : expr) : M value :=
  match e with
  | EString s => ret (VString s)
  | EArray es =>
      vs <- (fix eval_elems (es : list expr) : M (list value) :=
               match es with
               | [] => ret []
               | e :: es' =>
                   v <- eval e ;; vs <- eval_elems es' ;; ret (v :: vs)
               end) es ;;
      ret (VArray vs)
  | EObject ps =>
      o <- (fix eval_props (ps : list (string * expr))
                (acc : list (string * value)) : M (list (string * value)) :=
              match ps with
              | [] => ret acc
              | (k, e) :: ps' =>
                  v <- eval e ;; eval_props ps' (define_prop k v acc)
              end) ps [] ;;
      ret (VObject o)
  | EIdent x => resolve x
  | ECall f args =>
      fv <- eval f ;;
      vs <- (fix eval_args (es : list expr) : M (list value) :=
               match es with
               | [] => ret []
               | e :: es' =>
                   v <- eval e ;; vs <- eval_args es' ;; ret (v :: vs)
               end) args ;;
      call fv vs
  end.

(** The argument-list evaluator of [eval], under a name. *)
Definition eval_list : list expr -> M (list value) :=
  fix eval_elems (es : list expr) : M (list value) :=
    match es with
    | [] => ret []
    | e :: es' => v <- eval e ;; vs <- eval_elems es' ;; ret (v :: vs)
    end.

(** The property-list evaluator of [eval], under a name. *)
Definition eval_props : list (string * expr) -> list (string * value) ->
                        M (list (string * value)) :=
  fix eval_props (ps : list (string * expr)) (acc : list (string * value))
    : M (list (string * value)) :=
    match ps with
    | [] => ret acc
    | (k, e) :: ps' => v <- eval e ;; eval_props ps' (define_prop k v acc)
    end.

Definition exec (s : stmt) : M unit :=
  match s with
  | SExpr e => _ <- eval e ;; ret tt
  end.

Fixpoint run (p : program) : M unit :=
  match p with
  | [] => ret tt
  | s :: p' => _ <- exec s ;; run p'
  end.

(** ** The file *)

(** The array literal [[name, description]]. *)
Definition entry (n d : string) : expr := EArray [EString n; EString d].

Definition sidebar_literal : expr :=
  EObject
    [ ("macro",
       EArray
         [ entry "iblas_asum_for_cuda" "asum with cuda";
           entry "iblas_axpy_for_cuda" "axpy with cuda";
           entry "iblas_copy_for_cuda" "copy for cuda";
           entry "iblas_dot_for_cuda" "dot product for cuda";
           entry "iblas_gbmv_for_cuda" "gbmv for cuda";
           entry "iblas_gemm_for_cuda" "gemm for cuda";
           entry "iblas_nrm2_for_cuda" "nrm2 for cuda";
           entry "iblas_scal_for_cuda" "scalar mul for cuda";
           entry "iblas_swap_for_cuda" "swap matrices for cuda" ]);
      ("mod",
       EArray
         [ entry "binary"
              "Provides the IBlasBinary binary trait for Coaster’s Framework implementation.";
           entry "frameworks"
              "Provides the specific Framework implementations for the Library Operations.";
           entry "operation"
              "Provides the IOperationX operation traits for Coaster’s Framework implementation.";
           entry "plugin"
              "Provides the IBlas library trait for Coaster implementation.";
           entry "transpose"
              "Provides the Transpose functionality for Matrix operations." ]) ].

Definition sidebar_program : program :=
  [ SExpr (ECall (EIdent "initSidebarItems") [sidebar_literal]) ].

(** A page with nothing installed. *)
Definition empty_state : state := mkState [] [].

(** A documentation page that has installed its [initSidebarItems] and has
    not been called yet. *)
Definition docs_page : state :=
  mkState [("initSidebarItems", VHostFn "initSidebarItems")] [].

(** A page on which the name is declared and nothing has been assigned to
    it yet. *)
Definition unready_page : state :=
  mkState [("initSidebarItems", VUndefined)] [].

(** The values a call accepts as callee. *)
Definition is_callable (v : value) : bool :=
  match v with
  | VHostFn _ => true
  | _ => false
  end.

(** The characters of the listed names: lower-case letters, digits and the
    underscore. *)
Definition ident_char (c : ascii) : bool :=
  let n := nat_of_ascii c in
  (Nat.leb 97 n && Nat.leb n 122) || (Nat.leb 48 n && Nat.leb n 57) ||
  Nat.eqb n 95.

Definition identifierb (s : string) : bool :=
  negb (String.eqb s "") && forallb ident_char (list_ascii_of_string s).

(** The object the literal evaluates to, computed by [eval]. *)
Definition sidebar_items : value :=
  Eval vm_compute in
    match fst (eval sidebar_literal empty_state) with
    | inr v => v
    | inl _ => VUndefined
    end.

(** ** Reading the object *)

(** [o[k]] for an own property. *)
Definition get_prop (k : string) (o : value) : option value :=
  match o with
  | VObject ps => lookup k ps
  | _ => None
  end.

(** [Object.keys(o)] *)
Definition own_keys (o : value) : list string :=
  match o with
  | VObject ps => map fst ps
  | _ => []
  end.

(** [a[i]]; reading past the end of an array gives [undefined]. *)
Definition elem (i : nat) (a : value) : value :=
  match a with
  | VArray es => nth i es VUndefined
  | _ => VUndefined
  end.

(** The entries listed under category [c]. *)
Definition entries (c : string) (o : value) : list value :=
  match get_prop c o with
  | Some (VArray es) => es
  | _ => []
  end.

Definition names (c : string) (o : value) : list value :=
  map (elem 0) (entries c o).

Definition descriptions (c : string) (o : value) : list value :=
  map (elem 1) (entries c o).

(** ** Shapes *)

(** A two-element array whose elements are both strings. *)
Inductive string_pair : value -> Prop :=
| StringPair (n d : string) : string_pair (VArray [VString n; VString d]).

(** An array of such pairs. *)
Inductive entry_list : value -> Prop :=
| EntryList (es : list value) : Forall string_pair es -> entry_list (VArray es).

(** Line feed and carriage return. *)
Definition LF : ascii := "010"%char.
Definition CR : ascii := "013"%char.

Definition line_break (c : ascii) : bool := Ascii.eqb c LF || Ascii.eqb c CR.

(** Text on one line: not empty, and free of line feed and of carriage
    return; as a test, and as a proposition. *)
Definition one_lineb (s : string) : bool :=
  negb (String.eqb s "") &&
  forallb (fun c => negb (line_break c)) (list_ascii_of_string s).

Definition one_line (s : string) : Prop :=
  s <> "" /\ ~ In LF (list_ascii_of_string s) /\ ~ In CR (list_ascii_of_string s).

Definition starts_with (pre s : string) : Prop := exists r, s = pre ++ r.

Definition ends_with (suf s : string) : Prop := exists p, s = p ++ suf.

(** The name the crate gives the CUDA macro of BLAS operation [op]. *)
Definition cuda_macro (op : string) : string := "iblas_" ++ op ++ "_for_cuda".

(** Lexicographic order on names. *)
Definition str_lt (a b : string) : Prop := String.compare a b = Lt.

(** Expressions built from literals only. *)
Fixpoint is_literal (e : expr) : bool :=
  match e with
  | EString _ => true
  | EArray es => forallb is_literal es
  | EObject ps => forallb (fun p => is_literal (snd p)) ps
  | EIdent _ => false
  | ECall _ _ => false
  end.

(** A computation that returns [a] and leaves the host as it found it. *)
Definition pure_at {A} (m : M A) (a : A) : Prop := forall st, m st = (inr a, st).

(** Closes [NoDup] of a list of distinct closed values. *)
Ltac distinct_values :=
  repeat (constructor; [simpl; intuition discriminate|]); constructor.

(** Induction on expressions that reaches under the lists. *)
Section ExprInd.
Variable P : expr -> Prop.
Hypothesis HString : forall s, P (EString s).
Hypothesis HArray : forall es, Forall P es -> P (EArray es).
Hypothesis HObject : forall ps, Forall (fun p => P (snd p)) ps -> P (EObject ps).
Hypothesis HIdent : forall x, P (EIdent x).
Hypothesis HCall : forall f args, P f -> Forall P args -> P (ECall f args).

Fixpoint expr_ind' (e : expr) : P e :=
  match e with
  | EString s => HString s
  | EArray es =>
      HArray es
        ((fix go (es : list expr) : Forall P es :=
            match es with
            | [] => Forall_nil P
            | e :: es' => Forall_cons e (expr_ind' e) (go es')
            end) es)
  | EObject ps =>
      HObject ps
        ((fix go (ps : list (string * expr)) : Forall (fun p => P (snd p)) ps :=
            match ps with
            | [] => Forall_nil _
            | p :: ps' => Forall_cons p (expr_ind' (snd p)) (go ps')
            end) ps)
  | EIdent x => HIdent x
  | ECall f args =>
      HCall f args (expr_ind' f)
        ((fix go (es : list expr) : Forall P es :=
            match es with
            | [] => Forall_nil P
            | e :: es' => Forall_cons e (expr_ind' e) (go es')
            end) args)
  end.
End ExprInd.

(** * Properties *)

(** ** The evaluator on literals *)

Lemma eval_array_unfold (es : list expr) :
  eval (EArray es) = (vs <- eval_list es ;; ret (VArray vs)).
Proof. reflexivity. Qed.

Lemma eval_object_unfold (ps : list (string * expr)) :
  eval (EObject ps) = (o <- eval_props ps [] ;; ret (VObject o)).
Proof. reflexivity. Qed.

Lemma eval_call_unfold (f : expr) (args : list expr) :
  eval (ECall f args) = (fv <- eval f ;; vs <- eval_list args ;; call fv vs).
Proof. reflexivity. Qed.

Lemma pure_ret {A} (a : A) : pure_at (ret a) a.
Proof. intro st. reflexivity. Qed.

Lemma pure_bind {A B} (m : M A) (k : A -> M B) (a : A) (b : B) :
  pure_at m a -> pure_at (k a) b -> pure_at (bind m k) b.
Proof.
  intros Hm Hk st. unfold bind. rewrite Hm. apply Hk.
Qed.

Lemma eval_list_literal (es : list expr) :
  Forall (fun e => is_literal e = true -> exists v, pure_at (eval e) v) es ->
  forallb is_literal es = true ->
  exists vs, pure_at (eval_list es) vs.
Proof.
  induction 1 as [|e es He _ IH]; intro Hlit.
  - exists []. apply pure_ret.
  - simpl in Hlit. apply andb_true_iff in Hlit as [Hl Hls].
    destruct (He Hl) as [v Hv]. destruct (IH Hls) as [vs Hvs].
    exists (v :: vs).
    change (eval_list (e :: es))
      with (v0 <- eval e ;; vs0 <- eval_list es ;; ret (v0 :: vs0)).
    eapply pure_bind; [exact Hv|].
    eapply pure_bind; [exact Hvs|]. apply pure_ret.
Qed.

Lemma eval_props_literal (ps : list (string * expr)) :
  Forall (fun p => is_literal (snd p) = true -> exists v, pure_at (eval (snd p)) v) ps ->
  forallb (fun p => is_literal (snd p)) ps = true ->
  forall acc, exists o, pure_at (eval_props ps acc) o.
Proof.
  induction 1 as [|[k e] ps He _ IH]; intros Hlit acc.
  - exists acc. apply pure_ret.
  - simpl in Hlit. apply andb_true_iff in Hlit as [Hl Hls].
    destruct (He Hl) as [v Hv].
    destruct (IH Hls (define_prop k v acc)) as [o Ho].
    exists o.
    change (eval_props ((k, e) :: ps) acc)
      with (v0 <- eval e ;; eval_props ps (define_prop k v0 acc)).
    eapply pure_bind; [exact Hv|]. exact Ho.
Qed.

(** Evaluating a literal cannot fail, reads nothing and changes nothing. *)
Lemma eval_literal_pure (e : expr) :
  is_literal e = true -> exists v, pure_at (eval e) v.
Proof.
  induction e as [s|es IH|ps IH|x|f args _ _] using expr_ind';
    simpl is_literal; intro Hlit; try discriminate.
  - exists (VString s). apply pure_ret.
  - destruct (eval_list_literal es IH Hlit) as [vs Hvs].
    exists (VArray vs). rewrite eval_array_unfold.
    eapply pure_bind; [exact Hvs|]. apply pure_ret.
  - destruct (eval_props_literal ps IH Hlit []) as [o Ho].
    exists (VObject o). rewrite eval_object_unfold.
    eapply pure_bind; [exact Ho|]. apply pure_ret.
Qed.

Lemma sidebar_literal_is_literal : is_literal sidebar_literal = true.
Proof. reflexivity. Qed.

Lemma eval_sidebar_literal : pure_at (eval sidebar_literal) sidebar_items.
Proof. intro st. reflexivity. Qed.

(** ** Calls into the page *)

Lemma resolve_bound (x : string) (v : value) (st : state) :
  lookup x (globals st) = Some v -> resolve x st = (inr v, st).
Proof.
  intro H. unfold resolve, bind, read_globals. rewrite H. reflexivity.
Qed.

Lemma resolve_unbound (x : string) (st : state) :
  lookup x (globals st) = None -> resolve x st = (inl (ReferenceError x), st).
Proof.
  intro H. unfold resolve, bind, read_globals. rewrite H. reflexivity.
Qed.

Lemma eval_call_host (x h : string) (args : list expr) (vs : list value) (st : state) :
  lookup x (globals st) = Some (VHostFn h) ->
  pure_at (eval_list args) vs ->
  eval (ECall (EIdent x) args) st =
    (inr VUndefined, mkState (globals st) (trace st ++ [HostCall h vs])).
Proof.
  intros Hx Hargs. rewrite eval_call_unfold.
  unfold bind at 1. change (eval (EIdent x)) with (resolve x).
  rewrite (resolve_bound _ _ _ Hx).
  unfold bind at 1. rewrite Hargs. reflexivity.
Qed.

Lemma eval_list_singleton (e : expr) (v : value) :
  pure_at (eval e) v -> pure_at (eval_list [e]) [v].
Proof.
  intro H.
  change (eval_list [e]) with (v0 <- eval e ;; vs0 <- ret [] ;; ret (v0 :: vs0)).
  eapply pure_bind; [exact H|].
  eapply pure_bind; apply pure_ret.
Qed.

(** ** Strings *)

Lemma one_lineb_sound (s : string) : one_lineb s = true -> one_line s.
Proof.
  unfold one_lineb, one_line. intro H.
  apply andb_true_iff in H as [Hne Hall].
  rewrite forallb_forall in Hall.
  repeat split.
  - intros ->. discriminate.
  - intro Hin. specialize (Hall _ Hin). discriminate.
  - intro Hin. specialize (Hall _ Hin). discriminate.
Qed.

Lemma cuda_macro_starts (op : string) : starts_with "iblas_" (cuda_macro op).
Proof. exists (op ++ "_for_cuda"). reflexivity. Qed.

Lemma cuda_macro_ends (op : string) : ends_with "_for_cuda" (cuda_macro op).
Proof. exists ("iblas_" ++ op). reflexivity. Qed.

(** ** The sidebar object *)

(** C1: the object handed to [initSidebarItems] has the keys [macro] and
    [mod], and the value under each is an array of two-element arrays whose
    elements are both strings. *)
Theorem sidebar_has_macro_and_mod :
  exists m d,
    get_prop "macro" sidebar_items = Some m /\
    get_prop "mod" sidebar_items = Some d /\
    entry_list m /\ entry_list d.
Proof.
  do 2 eexists. split; [reflexivity|]. split; [reflexivity|].
  split; constructor; repeat constructor.
Qed.

(** C2: the mapping is flat: [macro] and [mod] are the only keys of the
    object, in that order, and every value under a key is an array of
    (name, description) pairs of strings, nothing nested inside a pair. *)
Theorem sidebar_is_flat :
  exists ps,
    sidebar_items = VObject ps /\
    own_keys sidebar_items = ["macro"; "mod"] /\
    Forall (fun p => entry_list (snd p)) ps.
Proof.
  eexists. split; [reflexivity|]. split; [reflexivity|].
  repeat (constructor; [constructor; repeat constructor|]). constructor.
Qed.

(** C3: the macros of the BLAS operations asum, axpy, copy, dot and gemm
    are listed under [macro] by their CUDA macro names, and the modules
    binary, frameworks, operation, plugin and transpose under [mod]. *)
Theorem sidebar_lists_blas_symbols :
  Forall (fun op => In (VString (cuda_macro op)) (names "macro" sidebar_items))
         ["asum"; "axpy"; "copy"; "dot"; "gemm"] /\
  Forall (fun m => In (VString m) (names "mod" sidebar_items))
         ["binary"; "frameworks"; "operation"; "plugin"; "transpose"].
Proof.
  split; repeat (constructor; [simpl; tauto|]); constructor.
Qed.

(** C4: every description, under [macro] and under [mod], is a string that
    is not empty and holds no newline character (line feed; nor a carriage
    return). *)
Theorem sidebar_descriptions_one_line :
  Forall (fun c =>
            entries c sidebar_items <> [] /\
            Forall (fun v => exists s, v = VString s /\ one_line s)
                   (descriptions c sidebar_items))
         ["macro"; "mod"].
Proof.
  repeat (constructor;
          [split; [discriminate|];
           repeat (constructor;
                   [eexists; split; [reflexivity|];
                    apply one_lineb_sound; vm_compute; reflexivity|]);
           constructor|]).
  constructor.
Qed.

(** C8: in each category the names are in strictly ascending lexicographic
    order: each name is below the one listed after it. *)
Theorem sidebar_names_ascending :
  exists ms ds,
    names "macro" sidebar_items = map VString ms /\
    names "mod" sidebar_items = map VString ds /\
    Sorted str_lt ms /\ Sorted str_lt ds.
Proof.
  exists ["iblas_asum_for_cuda"; "iblas_axpy_for_cuda"; "iblas_copy_for_cuda";
          "iblas_dot_for_cuda"; "iblas_gbmv_for_cuda"; "iblas_gemm_for_cuda";
          "iblas_nrm2_for_cuda"; "iblas_scal_for_cuda"; "iblas_swap_for_cuda"].
  exists ["binary"; "frameworks"; "operation"; "plugin"; "transpose"].
  split; [reflexivity|]. split; [reflexivity|].
  split; repeat (constructor; try reflexivity).
Qed.

(** C9: every name under [macro] starts with [iblas_] and ends with
    [_for_cuda] (it is [cuda_macro op] for some operation name [op]). *)
Theorem sidebar_macro_names_pattern :
  names "macro" sidebar_items <> [] /\
  Forall (fun v => exists n, v = VString n /\
                     starts_with "iblas_" n /\ ends_with "_for_cuda" n /\
                     exists op, n = cuda_macro op)
         (names "macro" sidebar_items).
Proof.
  split; [discriminate|].
  change (names "macro" sidebar_items)
    with (map (fun op => VString (cuda_macro op))
              ["asum"; "axpy"; "copy"; "dot"; "gbmv"; "gemm"; "nrm2"; "scal"; "swap"]).
  apply Forall_map, Forall_forall. intros op _.
  exists (cuda_macro op). split; [reflexivity|].
  split; [apply cuda_macro_starts|]. split; [apply cuda_macro_ends|].
  exists op. reflexivity.
Qed.

(** C10: there are exactly 9 entries under [macro] and exactly 5 under
    [mod], and within each category no name occurs twice. *)
Theorem sidebar_counts_and_distinct :
  length (entries "macro" sidebar_items) = 9 /\
  length (entries "mod" sidebar_items) = 5 /\
  NoDup (names "macro" sidebar_items) /\
  NoDup (names "mod" sidebar_items).
Proof.
  split; [reflexivity|]. split; [reflexivity|].
  split; simpl; distinct_values.
Qed.

(** ** The program *)

(** C5: the file is one application of [initSidebarItems] to the object:
    on a page where that name is bound to a page function, running the file
    is that one call with the object as only argument; the bindings of the
    page are untouched and the call is the only event added. *)
Theorem program_is_one_call (st : state) (h : string) :
  lookup "initSidebarItems" (globals st) = Some (VHostFn h) ->
  length sidebar_program = 1 /\
  run sidebar_program st = (inr tt, snd (call (VHostFn h) [sidebar_items] st)) /\
  snd (call (VHostFn h) [sidebar_items] st)
    = mkState (globals st) (trace st ++ [HostCall h [sidebar_items]]).
Proof.
  intro Hbound. split; [reflexivity|]. split; [|reflexivity].
  unfold sidebar_program, run, exec.
  unfold bind at 1. unfold bind at 1.
  rewrite (eval_call_host _ h _ [sidebar_items] st Hbound
             (eval_list_singleton _ _ eval_sidebar_literal)).
  reflexivity.
Qed.

Lemma program_is_one_call_witness :
  lookup "initSidebarItems" (globals docs_page) = Some (VHostFn "initSidebarItems") /\
  (length sidebar_program = 1 /\
   run sidebar_program docs_page
     = (inr tt, snd (call (VHostFn "initSidebarItems") [sidebar_items] docs_page)) /\
   snd (call (VHostFn "initSidebarItems") [sidebar_items] docs_page)
     = mkState (globals docs_page)
               (trace docs_page ++ [HostCall "initSidebarItems" [sidebar_items]])).
Proof.
  split; [reflexivity|].
  apply (program_is_one_call docs_page "initSidebarItems"). reflexivity.
Defined.

(** X1: where the page has not installed the routine the file stops at the
    name with a reference error, before the object is built; nothing is
    recorded and the host is as it was. *)
Lemma program_unbound (st : state) :
  lookup "initSidebarItems" (globals st) = None ->
  run sidebar_program st = (inl (ReferenceError "initSidebarItems"), st).
Proof.
  intro Hnone. unfold sidebar_program, run, exec.
  unfold bind at 1. unfold bind at 1.
  rewrite eval_call_unfold. unfold bind at 1.
  change (eval (EIdent "initSidebarItems")) with (resolve "initSidebarItems").
  rewrite (resolve_unbound _ _ Hnone). reflexivity.
Qed.

(** C6: building the object cannot fail: the literal holds no identifier
    and no call, and on every host its evaluation returns the object, never
    an error, and leaves the host as it was. *)
Theorem sidebar_construction_total :
  is_literal sidebar_literal = true /\
  forall st : state, eval sidebar_literal st = (inr sidebar_items, st).
Proof.
  split; [exact sidebar_literal_is_literal | exact eval_sidebar_literal].
Qed.

(** C7: the data is deterministic: whatever the host, two evaluations of
    the literal give the same object, [sidebar_items], with the same keys and
    the same entries in the same order. *)
Theorem sidebar_deterministic (st1 st2 : state) :
  fst (eval sidebar_literal st1) = fst (eval sidebar_literal st2) /\
  fst (eval sidebar_literal st1) = inr sidebar_items.
Proof.
  rewrite (eval_sidebar_literal st1), (eval_sidebar_literal st2).
  split; reflexivity.
Qed.

(** ** The program on an arbitrary page *)

Lemma program_unbound_witness :
  lookup "initSidebarItems" (globals empty_state) = None /\
  run sidebar_program empty_state
    = (inl (ReferenceError "initSidebarItems"), empty_state).
Proof.
  split; [reflexivity|]. apply (program_unbound empty_state). reflexivity.
Defined.

(** What running the file does, by what the page binds the name to. *)
Lemma run_sidebar_program (st : state) :
  run sidebar_program st =
    match lookup "initSidebarItems" (globals st) with
    | None => (inl (ReferenceError "initSidebarItems"), st)
    | Some (VHostFn h) =>
        (inr tt, mkState (globals st) (trace st ++ [HostCall h [sidebar_items]]))
    | Some _ => (inl TypeError, st)
    end.
Proof.
  unfold sidebar_program, run, exec.
  unfold bind at 1. unfold bind at 1.
  rewrite eval_call_unfold. unfold bind at 1.
  change (eval (EIdent "initSidebarItems")) with (resolve "initSidebarItems").
  destruct (lookup "initSidebarItems" (globals st)) as [v|] eqn:Hx.
  - rewrite (resolve_bound _ _ _ Hx). unfold bind at 1.
    rewrite (eval_list_singleton _ _ eval_sidebar_literal st).
    destruct v; reflexivity.
  - rewrite (resolve_unbound _ _ Hx). reflexivity.
Qed.

(** X2: where the name is bound to something that is not a function, the
    file fails with a type error once the object is built; no call is
    recorded and the host is as it was. *)
Theorem program_not_callable (st : state) (v : value) :
  lookup "initSidebarItems" (globals st) = Some v ->
  is_callable v = false ->
  run sidebar_program st = (inl TypeError, st).
Proof.
  intros Hx Hv. rewrite run_sidebar_program, Hx.
  destruct v; try reflexivity. discriminate.
Qed.

Lemma program_not_callable_witness :
  lookup "initSidebarItems" (globals unready_page) = Some VUndefined /\
  is_callable VUndefined = false /\
  run sidebar_program unready_page = (inl TypeError, unready_page).
Proof.
  split; [reflexivity|]. split; [reflexivity|].
  apply (program_not_callable unready_page VUndefined); reflexivity.
Defined.



(** ** Names as identifiers *)

Lemma identifierb_sound (s : string) :
  identifierb s = true ->
  s <> "" /\ Forall (fun c => ident_char c = true) (list_ascii_of_string s).
Proof.
  unfold identifierb. intro H. apply andb_true_iff in H as [Hne Hall].
  split.
  - intros ->. discriminate.
  - apply Forall_forall. rewrite forallb_forall in Hall. exact Hall.
Qed.

(** X5: every listed name, under [macro] and under [mod], is a non-empty
    word of lower-case ASCII letters, digits and underscores. *)
Theorem sidebar_names_identifiers :
  Forall (fun c =>
            Forall (fun v => exists n, v = VString n /\ n <> "" /\
                      Forall (fun ch => ident_char ch = true)
                             (list_ascii_of_string n))
                   (names c sidebar_items))
         (own_keys sidebar_items).
Proof.
  repeat (constructor;
          [repeat (constructor;
                   [eexists; split; [reflexivity|];
                    apply identifierb_sound; vm_compute; reflexivity|]);
           constructor|]).
  constructor.
Qed.
